(** * pyexchange: Uniswap v3 tick math, sqrt-price math and position entities

    A shallow embedding of [pyexchange/uniswapv3_math.py] and of the
    [Pool] / [Position] classes of [pyexchange/uniswapv3_entities.py],
    with the properties the specification states about them.

    Function bodies are embedded statement by statement.  Python exceptions
    are results of the error monad [res]; every function that can raise
    returns in it. *)

From Stdlib Require Import ZArith List Lia String Bool PrimFloat.
Import ListNotations.
Open Scope string_scope.
Open Scope Z_scope.
#[local] Set Warnings "-register-all".

(** ** Exceptions *)

Inductive exn : Type :=
| AssertionError
| TypeError
| ValueError
| ZeroDivisionError
| NameError (name : string)
| AttributeError (name : string).

Inductive res (A : Type) : Type :=
| Ok (a : A)
| Raise (e : exn).

Arguments Ok {A} a.
Arguments Raise {A} e.

Definition bind {A B : Type} (c : res A) (k : A -> res B) : res B :=
  match c with
  | Ok a => k a
  | Raise e => Raise e
  end.

Notation "x <- c ;; k" := (bind c (fun x => k))
  (at level 61, c at next level, right associativity).
Notation "c ;;; k" := (bind c (fun _ => k))
  (at level 61, right associativity).

(** [assert cond] *)
Definition assert_ (cond : bool) : res unit :=
  if cond then Ok tt else Raise AssertionError.

Definition returns {A : Type} (c : res A) : Prop := exists a, c = Ok a.
Definition raises {A : Type} (c : res A) : Prop := exists e, c = Raise e.

(** ** The number type

    Modelled from the spec: the [Fxp] class is the external [fxpmath]
    package, which is not part of the repository.  Following section 4.1 of
    the specification an [Fxp] value is an integer: multiplication is exact,
    division is floor division, [%] is the matching modulo, shifts are
    arithmetic and take a non-negative count, [&] and [|] are bitwise.  A zero
    divisor raises [ZeroDivisionError] and a negative shift count raises
    [ValueError], as Python integers do.

    This is the arithmetic of the SDK function that the source ports, on
    exact integers of any size.  The source creates its [Fxp] objects without
    a word size (only [MAX_UINT256] is given [n_word=256]) and writes [/]
    where the SDK divides integers, so a value that a function returns below
    is the value of the intended integer computation; it is not shown to be
    what the package computes.  The theorems on calls with Python values
    ([get_sqrt_ratio_at_tick_call], [mul_div_rounding_up_call] and the
    classes) do not depend on this arithmetic. *)

Definition fxp_div (a b : Z) : res Z :=
  if b =? 0 then Raise ZeroDivisionError else Ok (a / b).

Definition fxp_mod (a b : Z) : res Z :=
  if b =? 0 then Raise ZeroDivisionError else Ok (a mod b).

Definition fxp_shl (a n : Z) : res Z :=
  if n <? 0 then Raise ValueError else Ok (Z.shiftl a n).

Definition fxp_shr (a n : Z) : res Z :=
  if n <? 0 then Raise ValueError else Ok (Z.shiftr a n).

(** ** Module constants of uniswapv3_math.py that the functions below use *)

Definition MIN_TICK : Z := -887272.
Definition MAX_TICK : Z := 887272.
Definition MAX_UINT256 : Z :=
  0xffffffffffffffffffffffffffffffffffffffffffffffffffffffffffffffff.
Definition ZERO : Z := 0.
Definition ONE : Z := 1.
Definition Q96 : Z := 2 ^ 96.

(** ** Tick math *)

(** [int(math.log(x, 2))]: the index of the highest set bit, as the docstring
    says, taken exactly (the rounding of the floating-point logarithm is left
    out); [math.log] raises [ValueError] outside its domain. *)
Definition most_significant_bit (x : Z) : res Z :=
  if x <=? 0 then Raise ValueError else Ok (Z.log2 x).

(** [value * Fxp(multiply_by) >> Fxp(128)]; [*] binds tighter than [>>]. *)
Definition mul_shift (value multiply_by : Z) : Z :=
  Z.shiftr (value * multiply_by) 128.

(** [abs_tick & Fxp(mask) != 0] *)
Definition bit_set (abs_tick mask : Z) : bool :=
  negb (Z.land abs_tick mask =? 0).

(** One rung of the ladder:
    [if abs_tick & Fxp(mask) != 0: ratio = mul_shift(ratio, multiply_by)] *)
Definition ladder_step (abs_tick mask ratio multiply_by : Z) : Z :=
  if bit_set abs_tick mask then mul_shift ratio multiply_by else ratio.

Definition get_sqrt_ratio_at_tick (tick : Z) : res Z :=
  let abs_tick := if tick <? 0 then tick * -1 else tick in
  let ratio :=
    if bit_set abs_tick 0x1
    then 0xfffcb933bd6fad37aa2d162d1a594001
    else 0x100000000000000000000000000000000 in
  let ratio := ladder_step abs_tick 0x2 ratio 0xfff97272373d413259a46990580e213a in
  let ratio := ladder_step abs_tick 0x4 ratio 0xfff2e50f5f656932ef12357cf3c7fdcc in
  let ratio := ladder_step abs_tick 0x8 ratio 0xffe5caca7e10e4e61c3624eaa0941cd0 in
  let ratio := ladder_step abs_tick 0x10 ratio 0xffcb9843d60f6159c9db58835c926644 in
  let ratio := ladder_step abs_tick 0x20 ratio 0xff973b41fa98c081472e6896dfb254c0 in
  let ratio := ladder_step abs_tick 0x40 ratio 0xff2ea16466c96a3843ec78b326b52861 in
  let ratio := ladder_step abs_tick 0x80 ratio 0xfe5dee046a99a2a811c461f1969c3053 in
  let ratio := ladder_step abs_tick 0x100 ratio 0xfcbe86c7900a88aedcffc83b479aa3a4 in
  let ratio := ladder_step abs_tick 0x200 ratio 0xf987a7253ac413176f2b074cf7815e54 in
  let ratio := ladder_step abs_tick 0x400 ratio 0xf3392b0822b70005940c7a398e4b70f3 in
  let ratio := ladder_step abs_tick 0x800 ratio 0xe7159475a2c29b7443b29c7fa6e889d9 in
  let ratio := ladder_step abs_tick 0x1000 ratio 0xd097f3bdfd2022b8845ad8f792aa5825 in
  let ratio := ladder_step abs_tick 0x2000 ratio 0xa9f746462d870fdf8a65dc1f90e061e5 in
  let ratio := ladder_step abs_tick 0x4000 ratio 0x70d869a156d2a1b890bb3df62baf32f7 in
  let ratio := ladder_step abs_tick 0x8000 ratio 0x31be135f97d08fd981231505542fcfa6 in
  let ratio := ladder_step abs_tick 0x10000 ratio 0x9aa508b5b7a84e1c677de54f3e99bc9 in
  let ratio := ladder_step abs_tick 0x20000 ratio 0x5d6af8dedb81196699c329225ee604 in
  let ratio := ladder_step abs_tick 0x40000 ratio 0x2216e584f5fa1ea926041bedfe98 in
  let ratio := ladder_step abs_tick 0x80000 ratio 0x48a170391f7dc42444e8fa2 in
  ratio <- (if tick >? 0 then fxp_div MAX_UINT256 ratio else Ok ratio) ;;
  let q32 := 2 ^ 32 in
  m <- fxp_mod ratio q32 ;;
  if m >=? ZERO
  then (d <- fxp_div ratio q32 ;; Ok (d + ZERO))
  else fxp_div ratio q32.

(** One pass of the [for i in range(14)] loop of [get_tick_at_sqrt_ratio];
    the state is the pair [(r, log_2)]. *)
Definition log2_iteration (st : Z * Z) (i : Z) : res (Z * Z) :=
  let '(r, log_2) := st in
  let r := Z.shiftr (r * r) 127 in
  let f := Z.shiftr r 128 in
  s <- fxp_shl f (63 - i) ;;
  let log_2 := Z.lor log_2 s in
  r <- fxp_shr r f ;;
  Ok (r, log_2).

Fixpoint for_range {S : Type} (body : S -> Z -> res S) (i : Z) (n : nat)
  (st : S) : res S :=
  match n with
  | O => Ok st
  | S n' => st' <- body st i ;; for_range body (i + 1) n' st'
  end.

Definition get_tick_at_sqrt_ratio (sqrtRatioX96 : Z) : res Z :=
  let square_root_ratio_x128 := Z.shiftl sqrtRatioX96 32 in
  msb <- most_significant_bit square_root_ratio_x128 ;;
  r <- (if msb >? 128
        then fxp_shr square_root_ratio_x128 (msb - 127)
        else fxp_shl square_root_ratio_x128 (127 - msb)) ;;
  let log_2 := Z.shiftl (msb - 128) 64 in
  st <- for_range log2_iteration 0 14 (r, log_2) ;;
  let '(r, log_2) := st in
  let log_sqrt10001 := log_2 * 255738958999603826347141 in
  let tick_low :=
    Z.shiftr (log_sqrt10001 - 3402992956809132418596140100660247210) 128 in
  let tick_high :=
    Z.shiftr (log_sqrt10001 + 291339464771989622907027621153398088495) 128 in
  if tick_low =? tick_high
  then Ok tick_low
  else
    s <- get_sqrt_ratio_at_tick tick_high ;;
    if s <=? sqrtRatioX96 then Ok tick_high else Ok tick_low.

(** ** Sqrt-price math *)

Definition mul_div_rounding_up (a b denominator : Z) : res Z :=
  let product := a * b in
  result <- fxp_div product denominator ;;
  m <- fxp_mod product denominator ;;
  if negb (m =? ZERO) then Ok (result + ONE) else Ok result.

(** ** Python values

    The classes of uniswapv3_entities.py check their arguments with
    [isinstance] and mix [int], [Fxp] and [Wad] numbers, so the callers of the
    math functions pass tagged values.  [Token] and [Wad] come from pymaker;
    a token is kept by name and a [Wad] by its integer [value]. *)

Inductive Token : Type := mkToken (name : string).

Inductive value : Type :=
| VNone
| VBool (b : bool)
| VInt (n : Z)
| VFloat (f : float)
| VFxp (n : Z)
| VWad (n : Z)
| VToken (t : Token)
| VList (l : list value)
| VDict (d : list (string * value))
| VFunction (qualname : string)
| VPriceFraction (pf : PriceFraction)
| VPool (p : Pool)
| VPosition (p : Position)
with PriceFraction : Type :=
| mkPriceFraction (base_token quote_token : Token) (numerator denominator : value)
with Pool : Type :=
| mkPool (token_0 token_1 : Token) (fee : Z) (square_root_ratio_x96 : Z)
         (liquidity : Z) (tick_current : Z) (ticks : list value)
         (token_0_price token_1_price : value)
with Position : Type :=
| mkPosition (pool : Pool) (tick_lower tick_upper liquidity : Z)
             (token_0_amount token_1_amount mint_amounts : value).

Definition pool_token_0 (p : Pool) : Token :=
  let '(mkPool t0 _ _ _ _ _ _ _ _) := p in t0.
Definition pool_token_1 (p : Pool) : Token :=
  let '(mkPool _ t1 _ _ _ _ _ _ _) := p in t1.
Definition pool_square_root_ratio_x96 (p : Pool) : Z :=
  let '(mkPool _ _ _ s _ _ _ _ _) := p in s.
Definition pool_tick_current (p : Pool) : Z :=
  let '(mkPool _ _ _ _ _ t _ _ _) := p in t.

Definition position_pool (s : Position) : Pool :=
  let '(mkPosition p _ _ _ _ _ _) := s in p.
Definition position_tick_lower (s : Position) : Z :=
  let '(mkPosition _ l _ _ _ _ _) := s in l.
Definition position_tick_upper (s : Position) : Z :=
  let '(mkPosition _ _ u _ _ _ _) := s in u.
Definition position_liquidity (s : Position) : Z :=
  let '(mkPosition _ _ _ l _ _ _) := s in l.
Definition position_token_0_amount (s : Position) : value :=
  let '(mkPosition _ _ _ _ a _ _) := s in a.
Definition position_token_1_amount (s : Position) : value :=
  let '(mkPosition _ _ _ _ _ a _) := s in a.
Definition position_mint_amounts (s : Position) : value :=
  let '(mkPosition _ _ _ _ _ _ m) := s in m.

(** [self.token_0_amount = v] *)
Definition set_token_0_amount (s : Position) (v : value) : Position :=
  let '(mkPosition p l u q _ a1 m) := s in mkPosition p l u q v a1 m.

(** [assert isinstance(v, C)], giving the payload of the instance.  A Python
    [bool] is an [int]. *)
Definition as_Fxp (v : value) : res Z :=
  match v with VFxp n => Ok n | _ => Raise AssertionError end.
Definition as_Wad (v : value) : res Z :=
  match v with VWad n => Ok n | _ => Raise AssertionError end.
Definition as_int (v : value) : res Z :=
  match v with
  | VInt n => Ok n
  | VBool b => Ok (Z.b2z b)
  | _ => Raise AssertionError
  end.
Definition as_bool (v : value) : res bool :=
  match v with VBool b => Ok b | _ => Raise AssertionError end.
Definition as_float (v : value) : res float :=
  match v with VFloat f => Ok f | _ => Raise AssertionError end.
Definition as_Token (v : value) : res Token :=
  match v with VToken t => Ok t | _ => Raise AssertionError end.
Definition as_List (v : value) : res (list value) :=
  match v with VList l => Ok l | _ => Raise AssertionError end.
Definition as_Pool (v : value) : res Pool :=
  match v with VPool p => Ok p | _ => Raise AssertionError end.

(** [v == None] *)
Definition is_None (v : value) : bool :=
  match v with VNone => true | _ => false end.

(** [a, b = v]: unpacking the result of a call; [None] is what a function
    without a [return] statement evaluates to, and it is not iterable. *)
Definition unpack2 {A : Type} (v : option (A * A)) : res (A * A) :=
  match v with
  | Some p => Ok p
  | None => Raise TypeError
  end.

(** The integer behind a number, for [<], [>] and [+]. *)
Definition number (v : value) : res Z :=
  match v with
  | VInt n | VFxp n | VWad n => Ok n
  | VBool b => Ok (Z.b2z b)
  | _ => Raise TypeError
  end.

(** ** Calls of the math functions with Python values: the [isinstance]
    asserts that open each function, then its body. *)

Definition get_sqrt_ratio_at_tick_call (tick : value) : res value :=
  t <- as_Fxp tick ;;
  r <- get_sqrt_ratio_at_tick t ;;
  Ok (VFxp r).

Definition mul_div_rounding_up_call (a b denominator : value) : res value :=
  a <- as_Fxp a ;;
  b <- as_Fxp b ;;
  d <- as_Fxp denominator ;;
  r <- mul_div_rounding_up a b d ;;
  Ok (VFxp r).

Module SqrtPriceMath.

(** The two local names are exchanged and the function ends: there is no
    [return], so the call evaluates to [None]. *)
Definition invert_ratio_if_needed (sqrtRatioAX96 sqrtRatioBX96 : Z)
  : option (Z * Z) :=
  let '(sqrtRatioAX96, sqrtRatioBX96) :=
    if sqrtRatioAX96 >? sqrtRatioBX96
    then (sqrtRatioBX96, sqrtRatioAX96)
    else (sqrtRatioAX96, sqrtRatioBX96) in
  None.

Definition get_amount_0_delta
  (sqrtRatioAX96 sqrtRatioBX96 liquidity round_up : value) : res value :=
  a <- as_Fxp sqrtRatioAX96 ;;
  b <- as_Fxp sqrtRatioBX96 ;;
  l <- as_Wad liquidity ;;
  round_up <- as_bool round_up ;;
  ab <- unpack2 (invert_ratio_if_needed a b) ;;
  let '(a, b) := ab in
  let numerator_1 := Z.shiftl l 96 in
  let numerator_2 := b - a in
  if round_up
  then
    x <- mul_div_rounding_up_call (VInt numerator_1) (VFxp numerator_2) (VFxp b) ;;
    mul_div_rounding_up_call x (VFxp ONE) (VFxp a)
  else
    q <- fxp_div (numerator_1 * numerator_2) b ;;
    q <- fxp_div q a ;;
    Ok (VFxp q).

Definition get_amount_1_delta
  (sqrtRatioAX96 sqrtRatioBX96 liquidity round_up : value) : res value :=
  a <- as_Fxp sqrtRatioAX96 ;;
  b <- as_Fxp sqrtRatioBX96 ;;
  l <- as_Wad liquidity ;;
  round_up <- as_bool round_up ;;
  ab <- unpack2 (invert_ratio_if_needed a b) ;;
  let '(a, b) := ab in
  if round_up
  then mul_div_rounding_up_call (VWad l) (VFxp (b - a)) (VFxp Q96)
  else
    q <- fxp_div (l * (b - a)) Q96 ;;
    Ok (VFxp q).

(** A call with an argument list: four positional parameters, anything
    else is a [TypeError]. *)
Definition apply_get_amount_0_delta (args : list value) : res value :=
  match args with
  | [a; b; l; r] => get_amount_0_delta a b l r
  | _ => Raise TypeError
  end.

Definition apply_get_amount_1_delta (args : list value) : res value :=
  match args with
  | [a; b; l; r] => get_amount_1_delta a b l r
  | _ => Raise TypeError
  end.

End SqrtPriceMath.

(** ** uniswapv3_entities.py

    [PriceFraction], [Pool] and [Position].  [max_liquidity_for_amounts],
    which stops in the middle of an assignment, and the calldata classes
    are left out; [from_amounts] and [mint_amounts_with_slippage] follow
    further down. *)

(** The names the module binds at top level: its imports and its class
    statements, in source order. *)
Definition entities_globals : list string :=
  [ "time"; "Fxp"; "List"; "Optional"; "Tuple"; "Web3";
    "get_sqrt_ratio_at_tick"; "SqrtPriceMath";
    "Address"; "Calldata"; "Invocation"; "Token"; "Wad";
    "bytes_to_int"; "bytes_to_hexstring";
    "PriceFraction"; "Pool"; "Position"; "Params"; "MintParams";
    "CollectParams" ]%string.

Section Entities.

(** The object a bound global name stands for, and what calling an object
    does.  Both are consulted only after the name has been found among
    [entities_globals]. *)
Variable global_object : string -> value.
Variable call : value -> list value -> res value.
(** [float(a / b)] *)
Variable float_quotient : value -> value -> res float.

(** A free name in a function body: not a local, so looked up in the
    module (none of the names looked up below is a builtin). *)
Definition lookup_global (name : string) : res value :=
  if existsb (String.eqb name) entities_globals
  then Ok (global_object name)
  else Raise (NameError name).

Definition PriceFraction_init
  (base_token quote_token denominator numerator : value)
  : res PriceFraction :=
  b <- as_Token base_token ;;
  q <- as_Token quote_token ;;
  Ok (mkPriceFraction b q numerator denominator).

(** [numerator] and [denominator] are free names here, not [self.]
    attributes. *)
Definition PriceFraction_get_float_price (self : PriceFraction) : res float :=
  n <- lookup_global "numerator" ;;
  d <- lookup_global "denominator" ;;
  float_quotient n d.

Definition Pool_init
  (token_0 token_1 fee square_root_ratio_x96 liquidity tick_current ticks
     : value) : res Pool :=
  t0 <- as_Token token_0 ;;
  t1 <- as_Token token_1 ;;
  fee <- as_int fee ;;
  s <- as_Fxp square_root_ratio_x96 ;;
  l <- as_Wad liquidity ;;
  tc <- as_int tick_current ;;
  tk <- as_List ticks ;;
  f <- lookup_global "get_token_1_price" ;;
  p0 <- call f [] ;;
  f <- lookup_global "get_token_1_price" ;;
  p1 <- call f [] ;;
  Ok (mkPool t0 t1 fee s l tc tk p0 p1).

Definition Pool_get_token_0_price (self : Pool) : res PriceFraction :=
  let t0 := VToken (pool_token_0 self) in
  let t1 := VToken (pool_token_1 self) in
  q192 <- lookup_global "Q192" ;;
  let s := pool_square_root_ratio_x96 self in
  PriceFraction_init t0 t1 q192 (VFxp (s * s)).

Definition Pool_get_token_1_price (self : Pool) : res PriceFraction :=
  let t0 := VToken (pool_token_0 self) in
  let t1 := VToken (pool_token_1 self) in
  let s := pool_square_root_ratio_x96 self in
  q192 <- lookup_global "Q192" ;;
  PriceFraction_init t0 t1 (VFxp (s * s)) q192.

Definition Position_init (pool tick_lower tick_upper liquidity : value)
  : res Position :=
  p <- as_Pool pool ;;
  lo <- as_int tick_lower ;;
  hi <- as_int tick_upper ;;
  l <- as_int liquidity ;;
  Ok (mkPosition p lo hi l VNone VNone VNone).

(** [self.name]: the attributes [__init__] assigns, then the functions of
    the class body. *)
Definition Position_getattr (self : Position) (name : string) : res value :=
  match name with
  | "pool" => Ok (VPool (position_pool self))
  | "tick_lower" => Ok (VInt (position_tick_lower self))
  | "tick_upper" => Ok (VInt (position_tick_upper self))
  | "liquidity" => Ok (VInt (position_liquidity self))
  | "token_0_amount" => Ok (position_token_0_amount self)
  | "token_1_amount" => Ok (position_token_1_amount self)
  | "mint_amounts" => Ok (position_mint_amounts self)
  | "__init__" | "get_token_0_price_lower" | "get_token_0_price_upper"
  | "amount_in_token_0" | "amount_in_token_1"
  | "max_liquidity_for_amounts" | "from_amounts"
  | "_ratios_after_slippage" | "mint_amounts_with_slippage"
  | "as_NFT" => Ok (VFunction name)
  | _ => Raise (AttributeError name)
  end%string.

(** The method stores its result in [self] and has no [return]: the new
    state of [self] comes back with the [None] of the call. *)
Definition amount_in_token_0 (self : Position) : res (Position * value) :=
  if is_None (position_token_0_amount self)
  then
    if pool_tick_current (position_pool self) <? position_tick_lower self
    then
      a <- get_sqrt_ratio_at_tick_call (VInt (position_tick_lower self)) ;;
      b <- get_sqrt_ratio_at_tick_call (VInt (position_tick_upper self)) ;;
      v <- SqrtPriceMath.get_amount_0_delta a b
             (VInt (position_liquidity self)) (VBool false) ;;
      Ok (set_token_0_amount self v, VNone)
    else if pool_tick_current (position_pool self) <? position_tick_upper self
    then
      a <- get_sqrt_ratio_at_tick_call (VInt (position_tick_lower self)) ;;
      b <- get_sqrt_ratio_at_tick_call (VInt (position_tick_upper self)) ;;
      v <- SqrtPriceMath.get_amount_0_delta a b
             (VInt (position_liquidity self)) (VBool false) ;;
      Ok (set_token_0_amount self v, VNone)
    else Ok (set_token_0_amount self (VWad 0), VNone)
  else Ok (self, VNone).

(** The function [mint_amounts] of the class body. *)
Definition mint_amounts (self : Position) : res value :=
  m <- Position_getattr self "_mint_amount" ;;
  if is_None m
  then
    if pool_tick_current (position_pool self) <? position_tick_lower self
    then
      a <- get_sqrt_ratio_at_tick_call (VInt (position_tick_lower self)) ;;
      b <- get_sqrt_ratio_at_tick_call (VInt (position_tick_upper self)) ;;
      amount0 <- SqrtPriceMath.get_amount_0_delta a b
             (VInt (position_liquidity self)) (VBool true) ;;
      Ok (VDict [("amount0", amount0); ("amount1", VInt 0)]%string)
    else if pool_tick_current (position_pool self) <? position_tick_upper self
    then
      amount0 <- SqrtPriceMath.apply_get_amount_0_delta [] ;;
      amount1 <- SqrtPriceMath.apply_get_amount_1_delta [] ;;
      Ok (VDict [("amount0", amount0); ("amount1", amount1)]%string)
    else
      amount1 <- SqrtPriceMath.apply_get_amount_1_delta [] ;;
      Ok (VDict [("amount0", VInt 0); ("amount1", amount1)]%string)
  else Ok m.

(** [position.mint_amounts()]: [__init__] assigns [self.mint_amounts], and
    the instance attribute hides the function of the class. *)
Definition call_mint_amounts (self : Position) : res value :=
  m <- Position_getattr self "mint_amounts" ;;
  match m with
  | VFunction _ => mint_amounts self
  | _ => Raise TypeError
  end.

(** [x.name] on a float *)
Definition float_getattr (x : float) (name : string) : res value :=
  match name with
  | "real" => Ok (VFloat x)
  | "imag" => Ok (VFloat 0%float)
  | _ => Raise (AttributeError name)
  end%string.

Definition _ratios_after_slippage (self : Position) (slippage_tolerance : value)
  : res (value * value) :=
  s <- as_float slippage_tolerance ;;
  assert_ (PrimFloat.ltb s 1 && PrimFloat.ltb 0 s) ;;;
  pf <- Pool_get_token_0_price (position_pool self) ;;
  p <- PriceFraction_get_float_price pf ;;
  let price_lower := PrimFloat.mul p (PrimFloat.sub 1 s) in
  pf <- Pool_get_token_0_price (position_pool self) ;;
  p <- PriceFraction_get_float_price pf ;;
  let price_upper := PrimFloat.mul p (PrimFloat.add 1 s) in
  encode <- lookup_global "encodeSqrtRatioX96" ;;
  n <- float_getattr price_lower "numerator" ;;
  d <- float_getattr price_lower "denominator" ;;
  sqrtRatioX96Lower <- call encode [n; d] ;;
  min_sqrt_ratio <- lookup_global "MIN_SQRT_RATIO" ;;
  lower <- number sqrtRatioX96Lower ;;
  lo <- number min_sqrt_ratio ;;
  let sqrtRatioX96Lower :=
    if lower <? lo then VFxp (lo + 1) else sqrtRatioX96Lower in
  encode <- lookup_global "encodeSqrtRatioX96" ;;
  n <- float_getattr price_upper "numerator" ;;
  d <- float_getattr price_upper "denominator" ;;
  sqrtRatioX96Upper <- call encode [n; d] ;;
  max_sqrt_ratio <- lookup_global "MAX_SQRT_RATIO" ;;
  upper <- number sqrtRatioX96Upper ;;
  hi <- number max_sqrt_ratio ;;
  let sqrtRatioX96Upper :=
    if upper >? hi then VFxp (hi - 1) else sqrtRatioX96Upper in
  Ok (sqrtRatioX96Lower, sqrtRatioX96Upper).

End Entities.

(** ** The ladder as a recursion over the binary digits of [abs_tick]

    The twenty multipliers of [get_sqrt_ratio_at_tick], lowest bit first. *)
Definition ladder_constants : list Z :=
  [ 0xfffcb933bd6fad37aa2d162d1a594001; 0xfff97272373d413259a46990580e213a;
    0xfff2e50f5f656932ef12357cf3c7fdcc; 0xffe5caca7e10e4e61c3624eaa0941cd0;
    0xffcb9843d60f6159c9db58835c926644; 0xff973b41fa98c081472e6896dfb254c0;
    0xff2ea16466c96a3843ec78b326b52861; 0xfe5dee046a99a2a811c461f1969c3053;
    0xfcbe86c7900a88aedcffc83b479aa3a4; 0xf987a7253ac413176f2b074cf7815e54;
    0xf3392b0822b70005940c7a398e4b70f3; 0xe7159475a2c29b7443b29c7fa6e889d9;
    0xd097f3bdfd2022b8845ad8f792aa5825; 0xa9f746462d870fdf8a65dc1f90e061e5;
    0x70d869a156d2a1b890bb3df62baf32f7; 0x31be135f97d08fd981231505542fcfa6;
    0x9aa508b5b7a84e1c677de54f3e99bc9; 0x5d6af8dedb81196699c329225ee604;
    0x2216e584f5fa1ea926041bedfe98; 0x48a170391f7dc42444e8fa2 ].

(** The rungs, driven by the masks [1, 2, 4, ...] as in the source. *)
Fixpoint ladder_masks (cs : list Z) (mask abs_tick ratio : Z) : Z :=
  match cs with
  | [] => ratio
  | c :: cs' =>
      ladder_masks cs' (2 * mask) abs_tick (ladder_step abs_tick mask ratio c)
  end.

(** What [get_sqrt_ratio_at_tick] does once the ladder is through. *)
Definition finish (tick ratio : Z) : res Z :=
  ratio <- (if tick >? 0 then fxp_div MAX_UINT256 ratio else Ok ratio) ;;
  let q32 := 2 ^ 32 in
  m <- fxp_mod ratio q32 ;;
  if m >=? ZERO
  then (d <- fxp_div ratio q32 ;; Ok (d + ZERO))
  else fxp_div ratio q32.

(** The same rungs, driven by the digits of a positive number. *)
Fixpoint ladder (cs : list Z) (p : positive) (ratio : Z) : Z :=
  match cs with
  | [] => ratio
  | c :: cs' =>
      match p with
      | xH => mul_shift ratio c
      | xO p' => ladder cs' p' ratio
      | xI p' => ladder cs' p' (mul_shift ratio c)
      end
  end.

Definition ratio_x128 (abs_tick : Z) : Z :=
  match abs_tick with
  | Zpos p => ladder ladder_constants p (2 ^ 128)
  | _ => 2 ^ 128
  end.

(** The 128-fractional-bit accumulator just before the conversion to
    Q64.96, and the value the function returns. *)
Definition accumulator (tick : Z) : Z :=
  let ratio := ratio_x128 (Z.abs tick) in
  if tick >? 0 then MAX_UINT256 / ratio else ratio.

Definition sqrt_ratio (tick : Z) : Z := accumulator tick / 2 ^ 32.

(** Every rung taken: the smallest value the ladder can reach. *)
Fixpoint ladder_min (cs : list Z) (ratio : Z) : Z :=
  match cs with
  | [] => ratio
  | c :: cs' => ladder_min cs' (mul_shift ratio c)
  end.

(** Neighbouring ticks differ by a factor of about 1.00005; [1 + 1/gapN]
    is a lower bound of it that survives the truncations. *)
Definition gapN : Z := 2 ^ 15.

(** The check behind a carry: with the low rungs taken from [x1] against the
    next rung alone from the initial register. *)
Fixpoint carry_ok (cs : list Z) (x1 : Z) : bool :=
  match cs with
  | [] => true
  | c :: cs' =>
      (gapN * x1 >=? (gapN + 1) * mul_shift (2 ^ 128) c)
      && carry_ok cs' (mul_shift x1 c)
  end.

(** [p] has at most [n] binary digits. *)
Fixpoint fits (n : nat) (p : positive) : bool :=
  match n with
  | O => false
  | S n' => match p with xH => true | xO p' | xI p' => fits n' p' end
  end.

Definition good_constant (c : Z) : bool := (0 <=? c) && (c <=? 2 ^ 128).

(** ** Statements of the specification *)

(** Tick to sqrt price and back. *)
Definition round_trip (tick : Z) : res Z :=
  s <- get_sqrt_ratio_at_tick tick ;;
  get_tick_at_sqrt_ratio s.

(** Section 4.2: shift right by 32 bits, one more if the discarded bits
    were not all zero. *)
Definition spec_shift32_round_up (ratio : Z) : Z :=
  ratio / 2 ^ 32 + (if ratio mod 2 ^ 32 =? 0 then 0 else 1).

(** Section 4.3: floor of the quotient, one more if the division left a
    remainder. *)
Definition spec_mul_div_rounding_up (a b denominator : Z) : Z :=
  if (a * b) mod denominator =? 0
  then a * b / denominator
  else a * b / denominator + 1.

(** Section 4.3, [get_amount0_delta]: the ratios in ascending order first. *)
Definition spec_get_amount0_delta (sqrtRatioA sqrtRatioB liquidity : Z)
  (roundUp : bool) : Z :=
  let '(lo, hi) :=
    if sqrtRatioA >? sqrtRatioB
    then (sqrtRatioB, sqrtRatioA) else (sqrtRatioA, sqrtRatioB) in
  let numerator1 := Z.shiftl liquidity 96 in
  let numerator2 := hi - lo in
  if roundUp
  then spec_mul_div_rounding_up
         (spec_mul_div_rounding_up numerator1 numerator2 hi) 1 lo
  else numerator1 * numerator2 / hi / lo.

(** The scenario of section 8: ticks -10 and 10, liquidity 1, the pool at
    tick 0 and price 1. *)
Definition scenario_pool : Pool :=
  mkPool (mkToken "DAI") (mkToken "USDC") 500 (2 ^ 96) 0 0 [] VNone VNone.

Definition scenario_position : Position :=
  mkPosition scenario_pool (-10) 10 1 VNone VNone VNone.

(** ** Further functions of uniswapv3_entities.py *)

Section MoreEntities.

Variable global_object : string -> value.
Variable call : value -> list value -> res value.
Variable float_quotient : value -> value -> res float.
(** [obj.name] on an object found under a global name. *)
Variable getattr_object : value -> string -> res value.

(** The static method [Position.from_amounts]; [self] and [useFullPrecision]
    are free names in its body. *)
Definition from_amounts
  (pool tick_lower tick_upper amount_0 amount_1 use_full_precision : value)
  : res Position :=
  p <- as_Pool pool ;;
  lo <- as_int tick_lower ;;
  hi <- as_int tick_upper ;;
  sqrtRatioAX96 <- get_sqrt_ratio_at_tick_call tick_lower ;;
  sqrtRatioBX96 <- get_sqrt_ratio_at_tick_call tick_upper ;;
  self <- lookup_global global_object "self" ;;
  m <- getattr_object self "max_liquidity_for_amounts" ;;
  ufp <- lookup_global global_object "useFullPrecision" ;;
  liquidity <- call m [VFxp (pool_square_root_ratio_x96 p); sqrtRatioAX96;
                       sqrtRatioBX96; amount_0; amount_1; ufp] ;;
  Position_init pool tick_lower tick_upper liquidity.

(** [mint_amounts_with_slippage]: the pair of limits is unpacked and the
    function ends. *)
Definition mint_amounts_with_slippage (self : Position)
  (slippage_tolerance : value) : res value :=
  limits <- _ratios_after_slippage global_object call float_quotient self
              slippage_tolerance ;;
  let '(sqrtRatioX96Lower, sqrtRatioX96Upper) := limits in
  Ok VNone.

End MoreEntities.
(** * Proofs

    ** The source's ladder and the digit recursion *)

Lemma get_sqrt_ratio_at_tick_masks tick :
  get_sqrt_ratio_at_tick tick =
  finish tick (ladder_masks ladder_constants 1 (if tick <? 0 then tick * -1 else tick) (2^128)).
Proof. reflexivity. Qed.

Lemma bit_set_pow2 a k : 0 <= k -> bit_set a (2 ^ k) = Z.odd (a / 2 ^ k).
Proof.
  intros Hk. unfold bit_set.
  rewrite <- Z.shiftr_div_pow2 by assumption.
  rewrite <- Z.bit0_odd, Z.shiftr_spec by lia. simpl (0 + k).
  assert (E : Z.land a (2 ^ k) = if Z.testbit a k then 2 ^ k else 0).
  { apply Z.bits_inj'. intros n Hn.
    rewrite Z.land_spec, Z.pow2_bits_eqb by assumption.
    destruct (Z.eqb_spec k n) as [->|Hne].
    - destruct (Z.testbit a n); simpl.
      + rewrite Z.pow2_bits_true; auto.
      + now rewrite Z.bits_0.
    - rewrite andb_false_r.
      destruct (Z.testbit a k).
      + rewrite Z.pow2_bits_false; auto.
      + now rewrite Z.bits_0. }
  rewrite E. destruct (Z.testbit a k); simpl.
  - assert (0 < 2 ^ k) by (apply Z.pow_pos_nonneg; lia).
    destruct (Z.eqb_spec (2 ^ k) 0); [lia | reflexivity].
  - reflexivity.
Qed.

Lemma ladder_masks_digits cs : forall k a x,
  0 <= k -> 0 <= a ->
  ladder_masks cs (2 ^ k) a x =
  match a / 2 ^ k with Zpos q => ladder cs q x | _ => x end.
Proof.
  induction cs as [|c cs IH]; intros k a x Hk Ha.
  - simpl. now destruct (a / 2 ^ k).
  - cbn [ladder_masks ladder].
    replace (2 * 2 ^ k) with (2 ^ (k + 1)) by (rewrite Z.pow_add_r; lia).
    rewrite IH by lia.
    unfold ladder_step. rewrite bit_set_pow2 by assumption.
    assert (Hp : 0 < 2 ^ k) by (apply Z.pow_pos_nonneg; lia).
    replace (a / 2 ^ (k + 1)) with (a / 2 ^ k / 2)
      by (rewrite Z.pow_add_r, Z.div_div by lia; reflexivity).
    assert (Hq : 0 <= a / 2 ^ k) by (apply Z.div_pos; lia).
    destruct (a / 2 ^ k) as [|q|q]; [reflexivity| |lia].
    destruct q as [q|q|].
    + replace (Z.pos q~1 / 2) with (Z.pos q)
        by (apply Z.div_unique with 1; lia).
      reflexivity.
    + replace (Z.pos q~0 / 2) with (Z.pos q)
        by (apply Z.div_unique with 0; lia).
      reflexivity.
    + reflexivity.
Qed.

Lemma ratio_x128_masks a :
  0 <= a -> ladder_masks ladder_constants 1 a (2 ^ 128) = ratio_x128 a.
Proof.
  intros Ha. change 1 with (2 ^ 0) at 1.
  rewrite ladder_masks_digits by lia.
  rewrite Z.pow_0_r, Z.div_1_r.
  unfold ratio_x128. destruct a; [reflexivity | reflexivity | lia].
Qed.

(** *** Arithmetic of one rung *)

Lemma mul_shift_div x c : mul_shift x c = x * c / 2 ^ 128.
Proof. unfold mul_shift. now rewrite Z.shiftr_div_pow2. Qed.

Lemma mul_shift_floor x c :
  2 ^ 128 * mul_shift x c <= x * c < 2 ^ 128 * (mul_shift x c + 1).
Proof.
  rewrite mul_shift_div.
  assert (H : 0 < 2 ^ 128) by reflexivity.
  pose proof (Z.mul_div_le (x * c) _ H).
  pose proof (Z.mul_succ_div_gt (x * c) _ H).
  lia.
Qed.

Lemma mul_shift_nonneg x c : 0 <= x -> 0 <= c -> 0 <= mul_shift x c.
Proof.
  intros Hx Hc. rewrite mul_shift_div. apply Z.div_pos; [nia | reflexivity].
Qed.

Lemma mul_shift_le x c : 0 <= x -> c <= 2 ^ 128 -> mul_shift x c <= x.
Proof.
  intros Hx Hc. rewrite mul_shift_div.
  apply Z.div_le_upper_bound; [reflexivity | nia].
Qed.

Lemma mul_shift_mono x y c : 0 <= c -> x <= y -> mul_shift x c <= mul_shift y c.
Proof.
  intros Hc Hxy. rewrite !mul_shift_div.
  apply Z.div_le_mono; [reflexivity | nia].
Qed.

Lemma good_constant_spec c : good_constant c = true -> 0 <= c <= 2 ^ 128.
Proof. unfold good_constant. rewrite andb_true_iff. lia. Qed.

Lemma gap_step c x1 x2 j :
  0 <= c <= 2 ^ 128 -> 0 <= x2 -> 0 <= j ->
  (gapN + 1) * x2 - j * gapN <= gapN * x1 ->
  (gapN + 1) * mul_shift x2 c - (j + 1) * gapN <= gapN * mul_shift x1 c.
Proof.
  intros Hc Hx2 Hj H.
  pose proof (mul_shift_floor x1 c) as [_ H1].
  pose proof (mul_shift_floor x2 c) as [H2 _].
  assert (HN : 0 < gapN) by reflexivity.
  set (D := 2 ^ 128) in *. assert (HD : 0 < D) by reflexivity.
  set (y1 := mul_shift x1 c) in *. set (y2 := mul_shift x2 c) in *.
  clearbody y1 y2 D.
  assert (E1 : ((gapN + 1) * x2 - j * gapN) * c <= gapN * x1 * c) by nia.
  assert (E2 : (gapN + 1) * (D * y2) <= (gapN + 1) * (x2 * c)) by nia.
  assert (E3 : j * gapN * c <= j * gapN * D) by nia.
  assert (E4 : gapN * (x1 * c) < gapN * (D * (y1 + 1))) by nia.
  assert (E5 : D * ((gapN + 1) * y2 - (j + 1) * gapN) < D * (gapN * y1 + 1)) by nia.
  nia.
Qed.

(** *** The ladder on a list of good constants *)

Lemma good_cons c cs :
  forallb good_constant (c :: cs) = true ->
  0 <= c <= 2 ^ 128 /\ forallb good_constant cs = true.
Proof.
  simpl. rewrite andb_true_iff. intros [H1 H2].
  split; [now apply good_constant_spec | assumption].
Qed.

Lemma ladder_nonneg cs : forall p x,
  forallb good_constant cs = true -> 0 <= x -> 0 <= ladder cs p x.
Proof.
  induction cs as [|c cs IH]; intros p x Hg Hx; [assumption|].
  apply good_cons in Hg as [Hc Hg].
  destruct p; cbn [ladder].
  - apply IH; [assumption | apply mul_shift_nonneg; lia].
  - now apply IH.
  - apply mul_shift_nonneg; lia.
Qed.

Lemma ladder_le cs : forall p x,
  forallb good_constant cs = true -> 0 <= x -> ladder cs p x <= x.
Proof.
  induction cs as [|c cs IH]; intros p x Hg Hx; [cbn; lia|].
  apply good_cons in Hg as [Hc Hg].
  pose proof (mul_shift_le x c Hx (proj2 Hc)).
  pose proof (mul_shift_nonneg x c Hx (proj1 Hc)).
  destruct p; cbn [ladder].
  - specialize (IH p (mul_shift x c) Hg). lia.
  - now apply IH.
  - assumption.
Qed.

Lemma ladder_min_mono cs : forall x y,
  forallb good_constant cs = true ->
  x <= y -> ladder_min cs x <= ladder_min cs y.
Proof.
  induction cs as [|c cs IH]; intros x y Hg Hxy; [assumption|].
  apply good_cons in Hg as [Hc Hg]. cbn [ladder_min].
  apply IH; [assumption | apply mul_shift_mono; lia].
Qed.

Lemma ladder_min_le cs : forall x,
  forallb good_constant cs = true -> 0 <= x -> ladder_min cs x <= x.
Proof.
  induction cs as [|c cs IH]; intros x Hg Hx; [cbn; lia|].
  apply good_cons in Hg as [Hc Hg]. cbn [ladder_min].
  pose proof (mul_shift_le x c Hx (proj2 Hc)).
  pose proof (mul_shift_nonneg x c Hx (proj1 Hc)).
  specialize (IH (mul_shift x c) Hg). lia.
Qed.

Lemma ladder_min_bound cs : forall p x,
  forallb good_constant cs = true -> 0 <= x ->
  ladder_min cs x <= ladder cs p x.
Proof.
  induction cs as [|c cs IH]; intros p x Hg Hx; [cbn; lia|].
  pose proof Hg as Hg'.
  apply good_cons in Hg as [Hc Hg].
  pose proof (mul_shift_le x c Hx (proj2 Hc)) as Hle.
  pose proof (mul_shift_nonneg x c Hx (proj1 Hc)) as Hnn.
  destruct p; cbn [ladder ladder_min].
  - now apply IH.
  - transitivity (ladder_min cs x).
    + now apply ladder_min_mono.
    + now apply IH.
  - now apply ladder_min_le.
Qed.

(** Two runs over the same digits keep their relative distance. *)
Lemma gap_preserved cs : forall p x1 x2 j,
  forallb good_constant cs = true -> 0 <= x2 -> 0 <= j ->
  (gapN + 1) * x2 - j * gapN <= gapN * x1 ->
  (gapN + 1) * ladder cs p x2 - (j + Z.of_nat (List.length cs)) * gapN
    <= gapN * ladder cs p x1.
Proof.
  induction cs as [|c cs IH]; intros p x1 x2 j Hg Hx2 Hj H.
  - cbn [ladder List.length Z.of_nat]. lia.
  - apply good_cons in Hg as [Hc Hg].
    assert (HN : 0 < gapN) by reflexivity.
    pose proof (gap_step c x1 x2 j Hc Hx2 Hj H) as Hs.
    pose proof (mul_shift_nonneg x2 c Hx2 (proj1 Hc)) as Hnn.
    cbn [List.length]. rewrite Nat2Z.inj_succ.
    destruct p; cbn [ladder].
    + specialize (IH p _ _ (j + 1) Hg Hnn ltac:(lia) Hs). lia.
    + specialize (IH p _ _ j Hg Hx2 Hj H). nia.
    + nia.
Qed.

(** The successor of [p] clears a run of low ones and sets the next digit:
    the run on [p] starting from [x1] against the run on [Pos.succ p]
    starting from the initial register. *)
Lemma carry_gap cs : forall p x1,
  forallb good_constant cs = true ->
  carry_ok cs x1 = true ->
  fits (List.length cs) (Pos.succ p) = true ->
  (gapN + 1) * ladder cs (Pos.succ p) (2 ^ 128)
    - Z.of_nat (List.length cs) * gapN
    <= gapN * ladder cs p x1.
Proof.
  induction cs as [|c cs IH]; intros p x1 Hg Hc Hf; [discriminate|].
  pose proof Hg as Hg'. apply good_cons in Hg' as [Hcb Hgs].
  cbn [carry_ok] in Hc. apply andb_true_iff in Hc as [Hc1 Hc2].
  apply Z.geb_le in Hc1.
  assert (HN : 0 < gapN) by reflexivity.
  assert (H128 : 0 <= 2 ^ 128) by (unfold Z.pow, Z.pow_pos; simpl; lia).
  cbn [List.length]. rewrite Nat2Z.inj_succ.
  destruct p as [p|p|]; cbn [Pos.succ ladder].
  - cbn [Pos.succ fits List.length] in Hf.
    specialize (IH p _ Hgs Hc2 Hf). nia.
  - pose proof (gap_preserved cs p x1 (mul_shift (2 ^ 128) c) 0 Hgs
                  (mul_shift_nonneg _ _ H128 (proj1 Hcb)) ltac:(lia)
                  ltac:(lia)).
    nia.
  - destruct cs as [|c' cs']; [discriminate|].
    cbn [carry_ok] in Hc2. apply andb_true_iff in Hc2 as [Hc3 _].
    apply Z.geb_le in Hc3. cbn [ladder List.length].
    rewrite Nat2Z.inj_succ. nia.
Qed.

Lemma fits_lt n : forall p, Z.pos p < 2 ^ Z.of_nat n -> fits n p = true.
Proof.
induction n as [|n IH]; intros p Hp.
- simpl in Hp. lia.
- rewrite Nat2Z.inj_succ, Z.pow_succ_r in Hp by lia.
  destruct p as [p|p|]; cbn [fits]; try reflexivity; apply IH; lia.
Qed.

(** *** The constants of the source *)

Lemma ladder_constants_good : forallb good_constant ladder_constants = true.
Proof. vm_compute. reflexivity. Qed.

Lemma ladder_constants_carry : carry_ok ladder_constants (2 ^ 128) = true.
Proof. vm_compute. reflexivity. Qed.

Lemma ladder_constants_min : 2 ^ 52 <= ladder_min ladder_constants (2 ^ 128).
Proof. apply Z.leb_le. vm_compute. reflexivity. Qed.

Lemma ratio_x128_bounds a : 2 ^ 52 <= ratio_x128 a <= 2 ^ 128.
Proof.
  assert (H128 : 0 <= 2 ^ 128) by (apply Z.leb_le; reflexivity).
  assert (H52 : 2 ^ 52 <= 2 ^ 128) by (apply Z.leb_le; reflexivity).
  unfold ratio_x128. destruct a as [|p|p]; try (split; [exact H52 | apply Z.le_refl]).
  split.
  - eapply Z.le_trans; [apply ladder_constants_min|].
    apply ladder_min_bound; [apply ladder_constants_good | exact H128].
  - apply ladder_le; [apply ladder_constants_good | exact H128].
Qed.

Lemma ratio_x128_gap a :
  0 <= a -> a + 1 < 2 ^ 20 ->
  (gapN + 1) * ratio_x128 (a + 1) - 20 * gapN <= gapN * ratio_x128 a.
Proof.
  intros Ha Hb.
  destruct a as [|p|p]; [| |lia].
  - apply Z.leb_le. vm_compute. reflexivity.
  - replace (Z.pos p + 1) with (Z.pos (Pos.succ p)) in * by lia.
    unfold ratio_x128.
    apply (carry_gap ladder_constants p (2 ^ 128)
             ladder_constants_good ladder_constants_carry).
    apply fits_lt. exact Hb.
Qed.

Lemma finish_value tick ratio :
  0 < ratio ->
  finish tick ratio =
  Ok ((if tick >? 0 then MAX_UINT256 / ratio else ratio) / 2 ^ 32).
Proof.
  intros Hr. unfold finish, fxp_div, fxp_mod.
  destruct (Z.eqb_spec ratio 0) as [E|_]; [lia|].
  set (r := if tick >? 0 then MAX_UINT256 / ratio else ratio).
  replace (if tick >? 0 then Ok (MAX_UINT256 / ratio) else Ok ratio)
    with (Ok r) by (unfold r; now destruct (tick >? 0)).
  cbn [bind].
  change (2 ^ 32 =? 0) with false. cbn [bind].
  destruct (r mod 2 ^ 32 >=? ZERO); [|reflexivity].
  unfold ZERO. now rewrite Z.add_0_r.
Qed.

Lemma get_sqrt_ratio_at_tick_value tick :
  get_sqrt_ratio_at_tick tick = Ok (sqrt_ratio tick).
Proof.
  rewrite get_sqrt_ratio_at_tick_masks.
  replace (if tick <? 0 then tick * -1 else tick) with (Z.abs tick)
    by (destruct (Z.ltb_spec tick 0); lia).
  rewrite ratio_x128_masks by apply Z.abs_nonneg.
  rewrite finish_value; [reflexivity|].
  pose proof (ratio_x128_bounds (Z.abs tick)) as [H _].
  eapply Z.lt_le_trans; [|exact H]. reflexivity.
Qed.

(** *** Strict monotonicity of the integer computation

    In exact integer arithmetic the values [sqrt_ratio] of the ladder are
    strictly increasing on the tick domain. *)

Lemma shift32_gap x y : x + 2 ^ 32 <= y -> x / 2 ^ 32 < y / 2 ^ 32.
Proof.
  intros H.
  assert (x / 2 ^ 32 + 1 <= y / 2 ^ 32); [|lia].
  rewrite <- (Z.div_add x 1 (2 ^ 32)) by (intro E; discriminate E).
  apply Z.div_le_mono; [reflexivity | lia].
Qed.

Lemma ratio_x128_step a :
  0 <= a -> a + 1 < 2 ^ 20 ->
  ratio_x128 (a + 1) + 2 ^ 32 <= ratio_x128 a.
Proof.
  intros Ha Hb.
  pose proof (ratio_x128_gap a Ha Hb) as Hg.
  pose proof (ratio_x128_bounds (a + 1)) as [Hlo _].
  set (x := ratio_x128 a) in *. set (y := ratio_x128 (a + 1)) in *.
  clearbody x y. unfold gapN in Hg.
  change (2 ^ 52) with 4503599627370496 in Hlo.
  change (2 ^ 15) with 32768 in Hg.
  change (2 ^ 32) with 4294967296. lia.
Qed.

Lemma reciprocal_step a :
  0 <= a -> a + 1 < 2 ^ 20 ->
  MAX_UINT256 / ratio_x128 a + 2 ^ 32 <= MAX_UINT256 / ratio_x128 (a + 1).
Proof.
  intros Ha Hb.
  pose proof (ratio_x128_gap a Ha Hb) as Hg.
  pose proof (ratio_x128_bounds (a + 1)) as [Hlo _].
  pose proof (ratio_x128_bounds a) as [Hlo' Hhi].
  set (x := ratio_x128 a) in *. set (y := ratio_x128 (a + 1)) in *.
  clearbody x y.
  assert (Hx : 0 < x) by (eapply Z.lt_le_trans; [|exact Hlo']; reflexivity).
  assert (Hy : 0 < y) by (eapply Z.lt_le_trans; [|exact Hlo]; reflexivity).
  assert (Hq : 2 ^ 127 <= MAX_UINT256 / x).
  { apply Z.div_le_lower_bound; [exact Hx|].
    transitivity (2 ^ 128 * 2 ^ 127); [|apply Z.leb_le; reflexivity].
    apply Z.mul_le_mono_nonneg_r; [apply Z.leb_le; reflexivity | exact Hhi]. }
  pose proof (Z.mul_div_le MAX_UINT256 x Hx) as Hm.
  apply Z.div_le_lower_bound; [exact Hy|].
  set (q := MAX_UINT256 / x) in *. clearbody q.
  set (U := MAX_UINT256) in *. clearbody U.
  unfold gapN in Hg.
  change (2 ^ 52) with 4503599627370496 in *.
  change (2 ^ 15) with 32768 in Hg.
  change (2 ^ 127) with 170141183460469231731687303715884105728 in Hq.
  change (2 ^ 32) with 4294967296.
  assert (E1 : y <= 65536 * (x - y)) by lia.
  assert (E2 : 4294967296 * 65536 <= q) by lia.
  assert (E3 : 4294967296 * y <= q * (x - y)) by nia.
  nia.
Qed.

Lemma sqrt_ratio_succ t :
  MIN_TICK <= t < MAX_TICK -> sqrt_ratio t < sqrt_ratio (t + 1).
Proof.
  unfold MIN_TICK, MAX_TICK. intros [Hlo Hhi].
  assert (H20 : 887272 < 2 ^ 20) by reflexivity.
  destruct (Z.lt_trichotomy t 0) as [Hneg | [-> | Hpos]].
  - unfold sqrt_ratio, accumulator.
    destruct (Z.gtb_spec t 0); [lia|].
    destruct (Z.gtb_spec (t + 1) 0); [lia|].
    apply shift32_gap.
    replace (Z.abs t) with (Z.abs (t + 1) + 1) by lia.
    apply ratio_x128_step; lia.
  - apply Z.ltb_lt. vm_compute. reflexivity.
  - unfold sqrt_ratio, accumulator.
    destruct (Z.gtb_spec t 0); [|lia].
    destruct (Z.gtb_spec (t + 1) 0); [|lia].
    apply shift32_gap.
    replace (Z.abs (t + 1)) with (Z.abs t + 1) by lia.
    apply reciprocal_step; lia.
Qed.

Lemma sqrt_ratio_increasing t1 t2 :
  MIN_TICK <= t1 -> t1 < t2 -> t2 <= MAX_TICK ->
  sqrt_ratio t1 < sqrt_ratio t2.
Proof.
  intros Hlo Hlt Hhi.
  replace t2 with (t1 + 1 + Z.of_nat (Z.to_nat (t2 - t1 - 1))) in * by lia.
  induction (Z.to_nat (t2 - t1 - 1)) as [|n IH].
  - rewrite Z.add_0_r. apply sqrt_ratio_succ. simpl in Hhi. lia.
  - rewrite Nat2Z.inj_succ in *.
    transitivity (sqrt_ratio (t1 + 1 + Z.of_nat n)).
    + apply IH; lia.
    + replace (t1 + 1 + Z.succ (Z.of_nat n)) with (t1 + 1 + Z.of_nat n + 1) by lia.
      apply sqrt_ratio_succ. lia.
Qed.

(** ** get_sqrt_ratio_at_tick *)





(** C5: the conversion to Q64.96 never adds the rounding unit: the result
    is the floor of [accumulator / 2^32] for every tick.  At tick -1 the
    discarded 32 bits are not zero and the result is one below the rounded-up
    value of the specification. *)
Theorem get_sqrt_ratio_at_tick_rounds_down :
  (forall tick, get_sqrt_ratio_at_tick tick = Ok (accumulator tick / 2 ^ 32))
  /\ accumulator (-1) mod 2 ^ 32 = 0x1a594001
  /\ get_sqrt_ratio_at_tick (-1) = Ok 79224201403219477170569942573
  /\ spec_shift32_round_up (accumulator (-1)) = 79224201403219477170569942574.
Proof.
  split; [exact get_sqrt_ratio_at_tick_value|].
  repeat split; vm_compute; reflexivity.
Qed.

(** ** get_tick_at_sqrt_ratio *)

(** C1: the round trip does not return the tick it started from on the ticks
    whose sqrt price lies in [[2^96, 2^97)]: at ticks 0 and 1 (and 13863, the
    last of them) [get_tick_at_sqrt_ratio] raises.  Outside that band the
    round trip is the identity on the ticks evaluated here. *)
Theorem round_trip_raises_from_tick_0 :
  round_trip 0 = Raise ValueError
  /\ get_sqrt_ratio_at_tick 1 = Ok 79232123823359799118286999567
  /\ get_tick_at_sqrt_ratio 79232123823359799118286999567 = Raise ValueError
  /\ round_trip 1 = Raise ValueError
  /\ round_trip 13863 = Raise ValueError
  /\ round_trip 13864 = Ok 13864
  /\ round_trip (-1) = Ok (-1)
  /\ round_trip MIN_TICK = Ok MIN_TICK
  /\ round_trip MAX_TICK = Ok MAX_TICK.
Proof. repeat split; vm_compute; reflexivity. Qed.

(** ** mul_div_rounding_up *)


(** ** SqrtPriceMath *)

(** C7: [invert_ratio_if_needed] gives nothing back, so no ordered pair of
    ratios reaches the computation: on every well-typed input both delta
    functions raise at the unpacking of its result. *)
Theorem amount_deltas_raise_at_unpacking :
  forall a b liquidity round_up,
    SqrtPriceMath.invert_ratio_if_needed a b = None
    /\ SqrtPriceMath.get_amount_0_delta
         (VFxp a) (VFxp b) (VWad liquidity) (VBool round_up) = Raise TypeError
    /\ SqrtPriceMath.get_amount_1_delta
         (VFxp a) (VFxp b) (VWad liquidity) (VBool round_up) = Raise TypeError.
Proof.
  intros a b l r.
  assert (E : SqrtPriceMath.invert_ratio_if_needed a b = None).
  { unfold SqrtPriceMath.invert_ratio_if_needed. now destruct (a >? b). }
  split; [exact E|].
  unfold SqrtPriceMath.get_amount_0_delta, SqrtPriceMath.get_amount_1_delta.
  cbn [as_Fxp as_Wad as_bool bind]. rewrite E. split; reflexivity.
Qed.

(** ** Pool and Position *)

Lemma lookup_get_token_1_price global_object :
  lookup_global global_object "get_token_1_price"
  = Raise (NameError "get_token_1_price").
Proof. reflexivity. Qed.

Lemma lookup_Q192 global_object :
  lookup_global global_object "Q192" = Raise (NameError "Q192").
Proof. reflexivity. Qed.

(** C10: [Pool.__init__] raises on every combination of arguments; when all
    [isinstance] asserts pass, the error is the [NameError] of the free name
    [get_token_1_price].  A [Position] needs a [Pool] instance as its first
    argument. *)
Theorem Pool_init_always_raises :
  forall (global_object : string -> value)
         (call : value -> list value -> res value),
    (forall token_0 token_1 fee square_root_ratio_x96 liquidity tick_current
            ticks,
        raises (Pool_init global_object call token_0 token_1 fee
                  square_root_ratio_x96 liquidity tick_current ticks))
    /\ (forall t0 t1 fee s l tc tk,
           Pool_init global_object call (VToken t0) (VToken t1) (VInt fee)
             (VFxp s) (VWad l) (VInt tc) (VList tk)
           = Raise (NameError "get_token_1_price"))
    /\ (forall pool tick_lower tick_upper liquidity,
           (exists p, pool = VPool p)
           \/ Position_init pool tick_lower tick_upper liquidity
              = Raise AssertionError).
Proof.
  intros g c. split; [|split].
  - intros a1 a2 a3 a4 a5 a6 a7. unfold Pool_init.
    destruct (as_Token a1); [|eexists; reflexivity].
    destruct (as_Token a2); [|eexists; reflexivity].
    destruct (as_int a3); [|eexists; reflexivity].
    destruct (as_Fxp a4); [|eexists; reflexivity].
    destruct (as_Wad a5); [|eexists; reflexivity].
    destruct (as_int a6); [|eexists; reflexivity].
    destruct (as_List a7); [|eexists; reflexivity].
    cbn [bind]. rewrite lookup_get_token_1_price.
    eexists; reflexivity.
  - intros. unfold Pool_init. cbn [as_Token as_int as_Fxp as_Wad as_List bind].
    now rewrite lookup_get_token_1_price.
  - intros pool tl tu l.
    destruct pool; try (right; reflexivity).
    left. now eexists.
Qed.

(** C6: in the scenario the pool tick 0 lies within [[-10, 10)], and no
    token0 amount comes out: [amount_in_token_0] hands the integer tick to
    [get_sqrt_ratio_at_tick], whose [isinstance(tick, Fxp)] assert fails;
    the function [mint_amounts] reads the attribute [_mint_amount] that
    nothing assigns, and on an instance the name [mint_amounts] is the [None]
    that [__init__] stored.  The formula of the specification, from the
    pool's current sqrt price to the sqrt price of tick 10, gives 1 when
    rounding up. *)
Theorem within_range_amount0_raises :
  (position_tick_lower scenario_position
     <= pool_tick_current (position_pool scenario_position)
     < position_tick_upper scenario_position)
  /\ amount_in_token_0 scenario_position = Raise AssertionError
  /\ mint_amounts scenario_position = Raise (AttributeError "_mint_amount")
  /\ call_mint_amounts scenario_position = Raise TypeError
  /\ spec_get_amount0_delta
       (pool_square_root_ratio_x96 (position_pool scenario_position))
       79267784519130042428790663798 (position_liquidity scenario_position)
       true = 1
  /\ get_sqrt_ratio_at_tick (position_tick_upper scenario_position)
     = Ok 79267784519130042428790663798.
Proof.
  split; [cbn; lia|]. repeat split; vm_compute; reflexivity.
Qed.

(** C9: [_ratios_after_slippage] returns no limits: for a tolerance in
    (0, 1) the first statement stops at the free name [Q192] inside
    [get_token_0_price]; outside (0, 1) the assert fails. *)
Theorem ratios_after_slippage_raises :
  forall (global_object : string -> value)
         (call : value -> list value -> res value)
         (float_quotient : value -> value -> res float),
    (forall self s,
        _ratios_after_slippage global_object call float_quotient self (VFloat s)
        = if PrimFloat.ltb s 1 && PrimFloat.ltb 0 s
          then Raise (NameError "Q192")
          else Raise AssertionError)
    /\ _ratios_after_slippage global_object call float_quotient
         scenario_position (VFloat 0.5)
       = Raise (NameError "Q192").
Proof.
  intros g c fq.
  assert (H : forall self s,
        _ratios_after_slippage g c fq self (VFloat s)
        = if PrimFloat.ltb s 1 && PrimFloat.ltb 0 s
          then Raise (NameError "Q192")
          else Raise AssertionError).
  { intros self s. unfold _ratios_after_slippage.
    cbn [as_float bind].
    destruct (PrimFloat.ltb s 1 && PrimFloat.ltb 0 s); [|reflexivity].
    cbn [assert_ bind]. unfold Pool_get_token_0_price.
    cbv zeta. now rewrite lookup_Q192. }
  split; [exact H|].
  rewrite H. reflexivity.
Qed.

(** * Further properties of the code

    ** get_tick_at_sqrt_ratio *)

(** X5: a sqrt price that is zero or negative is rejected by the logarithm
    of [most_significant_bit]. *)
Theorem get_tick_at_sqrt_ratio_nonpositive (s : Z) :
  s <= 0 -> get_tick_at_sqrt_ratio s = Raise ValueError.
Proof.
  intros Hs. unfold get_tick_at_sqrt_ratio. cbv zeta.
  rewrite Z.shiftl_mul_pow2 by lia.
  unfold most_significant_bit.
  assert (H32 : 0 < 2 ^ 32) by reflexivity.
  destruct (Z.leb_spec (s * 2 ^ 32) 0) as [_|H]; [reflexivity | nia].
Qed.

Lemma get_tick_at_sqrt_ratio_nonpositive_witness :
  get_tick_at_sqrt_ratio 0 = Raise ValueError.
Proof. apply (get_tick_at_sqrt_ratio_nonpositive 0). lia. Defined.

(** ** SqrtPriceMath, on any arguments *)

Lemma invert_ratio_if_needed_None a b :
  SqrtPriceMath.invert_ratio_if_needed a b = None.
Proof. unfold SqrtPriceMath.invert_ratio_if_needed. now destruct (a >? b). Qed.

Lemma raises_Raise {A : Type} (e : exn) : raises (@Raise A e).
Proof. now exists e. Qed.

Lemma get_amount_0_delta_raises a b l r :
  raises (SqrtPriceMath.get_amount_0_delta a b l r).
Proof.
  unfold SqrtPriceMath.get_amount_0_delta.
  destruct (as_Fxp a) as [a'|]; cbn [bind]; [|apply raises_Raise].
  destruct (as_Fxp b) as [b'|]; cbn [bind]; [|apply raises_Raise].
  destruct (as_Wad l) as [l'|]; cbn [bind]; [|apply raises_Raise].
  destruct (as_bool r) as [r'|]; cbn [bind]; [|apply raises_Raise].
  rewrite invert_ratio_if_needed_None. apply raises_Raise.
Qed.

Lemma get_amount_1_delta_raises a b l r :
  raises (SqrtPriceMath.get_amount_1_delta a b l r).
Proof.
  unfold SqrtPriceMath.get_amount_1_delta.
  destruct (as_Fxp a) as [a'|]; cbn [bind]; [|apply raises_Raise].
  destruct (as_Fxp b) as [b'|]; cbn [bind]; [|apply raises_Raise].
  destruct (as_Wad l) as [l'|]; cbn [bind]; [|apply raises_Raise].
  destruct (as_bool r) as [r'|]; cbn [bind]; [|apply raises_Raise].
  rewrite invert_ratio_if_needed_None. apply raises_Raise.
Qed.

(** X9: no call of [get_amount_0_delta] or [get_amount_1_delta] returns,
    whatever the values and however many of them are passed: an argument of
    the wrong class fails its assert, a wrong number of arguments is a type
    error, and well-typed arguments stop at the unpacking. *)
Theorem amount_deltas_never_return :
  forall (a b l r : value) (args : list value),
    raises (SqrtPriceMath.get_amount_0_delta a b l r)
    /\ raises (SqrtPriceMath.get_amount_1_delta a b l r)
    /\ raises (SqrtPriceMath.apply_get_amount_0_delta args)
    /\ raises (SqrtPriceMath.apply_get_amount_1_delta args).
Proof.
  intros a b l r args. repeat split.
  - apply get_amount_0_delta_raises.
  - apply get_amount_1_delta_raises.
  - unfold SqrtPriceMath.apply_get_amount_0_delta.
    destruct args as [|? [|? [|? [|? [|? ?]]]]];
      apply raises_Raise || apply get_amount_0_delta_raises.
  - unfold SqrtPriceMath.apply_get_amount_1_delta.
    destruct args as [|? [|? [|? [|? [|? ?]]]]];
      apply raises_Raise || apply get_amount_1_delta_raises.
Qed.

(** ** Pool, PriceFraction and Position *)

(** X10: with nothing cached, [amount_in_token_0] raises the
    [isinstance(tick, Fxp)] assert of [get_sqrt_ratio_at_tick] whenever the
    pool tick is below [tick_lower] or below [tick_upper]; otherwise it
    stores [Wad(0)] in [token_0_amount], changes no other attribute and
    evaluates to [None].  The pool's sqrt price is never read. *)
Theorem amount_in_token_0_empty_cache :
  forall (p : Pool) (lo hi l : Z) (a1 m : value),
    amount_in_token_0 (mkPosition p lo hi l VNone a1 m)
    = if (pool_tick_current p <? lo) || (pool_tick_current p <? hi)
      then Raise AssertionError
      else Ok (mkPosition p lo hi l (VWad 0) a1 m, VNone).
Proof.
  intros p lo hi l a1 m. unfold amount_in_token_0.
  cbn [position_token_0_amount position_pool position_tick_lower
       position_tick_upper position_liquidity is_None set_token_0_amount
       get_sqrt_ratio_at_tick_call as_Fxp bind].
  destruct (pool_tick_current p <? lo); [reflexivity|].
  destruct (pool_tick_current p <? hi); reflexivity.
Qed.

(** X11: the function [mint_amounts] raises on every position, at the
    attribute [_mint_amount]; and on every position that [__init__] has
    built, [position.mint_amounts()] calls the [None] stored under that
    name. *)
Theorem mint_amounts_never_returns :
  (forall self, mint_amounts self = Raise (AttributeError "_mint_amount"))
  /\ (forall pool tick_lower tick_upper liquidity,
         raises (self <- Position_init pool tick_lower tick_upper liquidity ;;
                 call_mint_amounts self))
  /\ (forall p lo hi l,
         (self <- Position_init (VPool p) (VInt lo) (VInt hi) (VInt l) ;;
          call_mint_amounts self)
         = Raise TypeError).
Proof.
  split; [|split].
  - intros self. reflexivity.
  - intros pool tl tu l. unfold Position_init.
    destruct (as_Pool pool); cbn [bind]; [|apply raises_Raise].
    destruct (as_int tl); cbn [bind]; [|apply raises_Raise].
    destruct (as_int tu); cbn [bind]; [|apply raises_Raise].
    destruct (as_int l); cbn [bind]; [|apply raises_Raise].
    apply raises_Raise.
  - intros. reflexivity.
Qed.

(** X12: the price getters of a pool stop at the free name [Q192], and
    [get_float_price] at the free name [numerator], on every object. *)
Theorem price_getters_raise :
  forall (global_object : string -> value)
         (float_quotient : value -> value -> res float),
    (forall pool,
        Pool_get_token_0_price global_object pool = Raise (NameError "Q192")
        /\ Pool_get_token_1_price global_object pool
           = Raise (NameError "Q192"))
    /\ (forall pf,
           PriceFraction_get_float_price global_object float_quotient pf
           = Raise (NameError "numerator")).
Proof.
  intros g fq. split.
  - intros pool. split; reflexivity.
  - intros pf. reflexivity.
Qed.

(** X13: [Position.from_amounts] raises [AssertionError] on every input:
    it asserts that [tick_lower] is an [int] and passes it to
    [get_sqrt_ratio_at_tick], which asserts that it is an [Fxp]. *)
Theorem from_amounts_always_asserts :
  forall (global_object : string -> value)
         (call : value -> list value -> res value)
         (getattr_object : value -> string -> res value)
         (pool tick_lower tick_upper amount_0 amount_1 use_full_precision
            : value),
    from_amounts global_object call getattr_object pool tick_lower tick_upper
      amount_0 amount_1 use_full_precision
    = Raise AssertionError.
Proof.
  intros g c ga pool tl tu a0 a1 ufp. unfold from_amounts.
  destruct pool; cbn [as_Pool bind]; try reflexivity.
  destruct tl; cbn [as_int bind]; try reflexivity;
    destruct tu; cbn [as_int bind]; reflexivity.
Qed.

Lemma ratios_after_slippage_error global_object call float_quotient self v :
  _ratios_after_slippage global_object call float_quotient self v
  = match v with
    | VFloat s =>
        if PrimFloat.ltb s 1 && PrimFloat.ltb 0 s
        then Raise (NameError "Q192")
        else Raise AssertionError
    | _ => Raise AssertionError
    end.
Proof.
  unfold _ratios_after_slippage.
  destruct v; cbn [as_float bind]; try reflexivity.
  destruct (PrimFloat.ltb f 1 && PrimFloat.ltb 0 f); reflexivity.
Qed.

(** X14: [mint_amounts_with_slippage] returns on no argument: a tolerance
    that is not a float in (0, 1) fails the asserts of
    [_ratios_after_slippage], any other stops at the free name [Q192]. *)
Theorem mint_amounts_with_slippage_never_returns :
  forall (global_object : string -> value)
         (call : value -> list value -> res value)
         (float_quotient : value -> value -> res float)
         (self : Position) (slippage_tolerance : value),
    mint_amounts_with_slippage global_object call float_quotient self
      slippage_tolerance
    = match slippage_tolerance with
      | VFloat s =>
          if PrimFloat.ltb s 1 && PrimFloat.ltb 0 s
          then Raise (NameError "Q192")
          else Raise AssertionError
      | _ => Raise AssertionError
      end.
Proof.
  intros g c fq self v. unfold mint_amounts_with_slippage.
  rewrite ratios_after_slippage_error.
  destruct v; try reflexivity.
  destruct (PrimFloat.ltb f 1 && PrimFloat.ltb 0 f); reflexivity.
Qed.
